(** * FLOPs Master: the matrix-multiplication cost engine and its catalogs

    A shallow embedding of the computational core of the FLOPs Master
    application:

    - [calculateFlops], [getAdjustedTflops], [calculateExecutionTime] and the
      [precisionTypes] table of the [MatrixFlopsCalculator] component;
    - the [nvidiaGpus] catalog, [getGpusBySeries] and [findGpuByName] of
      the [data/nvidiaGpus] module.

    ** Numbers

    Every quantity of the source is a JavaScript [number].  The type [number]
    below keeps the value space of an IEEE-754 double -- NaN, the two
    infinities, the two signed zeros and signed finite magnitudes -- and the
    IEEE rules for the special values (division by zero, [Infinity * 0],
    comparisons with NaN, the sign of a zero result).  Finite magnitudes are
    exact fractions: the rounding of binary64 is NOT modelled.  The model and
    the program therefore agree wherever the double computation is exact (in
    particular on integers below 2^53) and the theorems about non-integer
    values are statements about the real-number formulas the program
    evaluates. *)

From Stdlib Require Import ZArith NArith PArith QArith Bool List Lia.
From Stdlib Require Import Ascii String DecimalString.
From Stdlib Require Import Sorted Permutation.
Import ListNotations.

Local Open Scope Z_scope.

(* ================================================================== *)
(** * The [number] type *)
(* ================================================================== *)

Module JS.

(** [Fin s n d] is the finite value [(-1)^s * n / d]; [n = 0] gives the
    signed zeros.  [Inf s] is [Infinity] or [-Infinity]. *)
Inductive number : Type :=
| NaN : number
| Inf (s : bool) : number
| Fin (s : bool) (n : N) (d : positive) : number.

Definition ofZ (z : Z) : number := Fin (z <? 0) (Z.abs_N z) 1.

Definition ofQ (q : Q) : number :=
  Fin (Qnum q <? 0) (Z.abs_N (Qnum q)) (Qden q).

Definition zero : number := ofZ 0.
Definition one : number := ofZ 1.

(** The signed numerator of a finite value, as an integer. *)
Definition signed (s : bool) (n : N) : Z :=
  if s then - Z.of_N n else Z.of_N n.

(** A non-zero magnitude as a denominator. *)
Definition den_of (n : N) : positive :=
  match n with N0 => 1%positive | Npos p => p end.

(** Unary minus. *)
Definition neg (x : number) : number :=
  match x with
  | NaN => NaN
  | Inf s => Inf (negb s)
  | Fin s n d => Fin (negb s) n d
  end.

(** [x * y]. *)
Definition mul (x y : number) : number :=
  match x, y with
  | NaN, _ | _, NaN => NaN
  | Inf s1, Inf s2 => Inf (xorb s1 s2)
  | Inf s1, Fin s2 n _ | Fin s2 n _, Inf s1 =>
      if (n =? 0)%N then NaN else Inf (xorb s1 s2)
  | Fin s1 n1 d1, Fin s2 n2 d2 => Fin (xorb s1 s2) (n1 * n2) (d1 * d2)
  end.

(** [x / y]. *)
Definition div (x y : number) : number :=
  match x, y with
  | NaN, _ | _, NaN => NaN
  | Inf _, Inf _ => NaN
  | Inf s1, Fin s2 _ _ => Inf (xorb s1 s2)
  | Fin s1 _ _, Inf s2 => Fin (xorb s1 s2) 0 1
  | Fin s1 n1 d1, Fin s2 n2 d2 =>
      if (n2 =? 0)%N then
        if (n1 =? 0)%N then NaN else Inf (xorb s1 s2)
      else Fin (xorb s1 s2) (n1 * Npos d2) (d1 * den_of n2)
  end.

(** [x + y].  A sum of opposite values is [+0]; [-0 + -0] is [-0]. *)
Definition add (x y : number) : number :=
  match x, y with
  | NaN, _ | _, NaN => NaN
  | Inf s1, Inf s2 => if Bool.eqb s1 s2 then Inf s1 else NaN
  | Inf s, Fin _ _ _ | Fin _ _ _, Inf s => Inf s
  | Fin s1 n1 d1, Fin s2 n2 d2 =>
      let a := (n1 * Npos d2)%N in
      let b := (n2 * Npos d1)%N in
      if Bool.eqb s1 s2 then Fin s1 (a + b) (d1 * d2)
      else match (a ?= b)%N with
           | Eq => Fin false 0 (d1 * d2)
           | Gt => Fin s1 (a - b) (d1 * d2)
           | Lt => Fin s2 (b - a) (d1 * d2)
           end
  end.

(** [x - y] is [x + (-y)]. *)
Definition sub (x y : number) : number := add x (neg y).

(** The ordering of two numbers; [None] when one of them is NaN. *)
Definition compare (x y : number) : option comparison :=
  match x, y with
  | NaN, _ | _, NaN => None
  | Inf s1, Inf s2 =>
      Some (if s1 then if s2 then Eq else Lt else if s2 then Gt else Eq)
  | Inf s, Fin _ _ _ => Some (if s then Lt else Gt)
  | Fin _ _ _, Inf s => Some (if s then Gt else Lt)
  | Fin s1 n1 d1, Fin s2 n2 d2 =>
      Some (signed s1 n1 * Zpos d2 ?= signed s2 n2 * Zpos d1)
  end.

(** [x >= y], [x > y], [x < y], [x === y] and [x !== y]. *)
Definition ge (x y : number) : bool :=
  match compare x y with Some Gt | Some Eq => true | _ => false end.

Definition gt (x y : number) : bool :=
  match compare x y with Some Gt => true | _ => false end.

Definition lt (x y : number) : bool :=
  match compare x y with Some Lt => true | _ => false end.

Definition le (x y : number) : bool :=
  match compare x y with Some Lt | Some Eq => true | _ => false end.

Definition strict_eq (x y : number) : bool :=
  match compare x y with Some Eq => true | _ => false end.

Definition strict_neq (x y : number) : bool := negb (strict_eq x y).

(** Truthiness of a number: [0], [-0] and NaN are falsy. *)
Definition truthy (x : number) : bool :=
  match x with
  | NaN => false
  | Inf _ => true
  | Fin _ n _ => negb (n =? 0)%N
  end.

(** Two numbers are the same value: the same special value, or finite with
    the same sign and equal fractions.  (ECMAScript's SameValue.) *)
Definition same_value (x y : number) : Prop :=
  match x, y with
  | NaN, NaN => True
  | Inf s1, Inf s2 => s1 = s2
  | Fin s1 n1 d1, Fin s2 n2 d2 =>
      s1 = s2 /\ (n1 * Npos d2 = n2 * Npos d1)%N
  | _, _ => False
  end.

Definition is_finite (x : number) : bool :=
  match x with Fin _ _ _ => true | _ => false end.

End JS.

Import JS.

Declare Scope js_scope.
Delimit Scope js_scope with js.
Bind Scope js_scope with number.
Infix "*" := mul : js_scope.
Infix "/" := div : js_scope.
Infix "+" := add : js_scope.
Infix "-" := sub : js_scope.
Infix ">=" := ge : js_scope.
Infix "!==" := strict_neq (at level 70, no associativity) : js_scope.
Infix "===" := strict_eq (at level 70, no associativity) : js_scope.
Infix "≡" := same_value (at level 70, no associativity) : js_scope.

(* ================================================================== *)
(** * MatrixFlopsCalculator: the FLOPs engine *)
(* ================================================================== *)

Record MatrixDimensions : Type := {
  rows : number;
  cols : number
}.

Record FlopsResult : Type := {
  totalFlops : number;
  multiplications : number;
  additions : number;
  outputDimensions : MatrixDimensions
}.

(** [calculateFlops] returns [FlopsResult | null]; [null] is [None]. *)
Definition calculateFlops (matrixA matrixB : MatrixDimensions)
  : option FlopsResult :=
  if (cols matrixA !== rows matrixB)%js then None
  else
    let m := rows matrixA in
    let n := cols matrixA in
    let p := cols matrixB in
    let outputDimensions := {| rows := m; cols := p |} in
    let multiplications := (m * p * n)%js in
    let additions := (m * p * (n - ofZ 1))%js in
    let totalFlops := (multiplications + additions)%js in
    Some {| totalFlops := totalFlops;
            multiplications := multiplications;
            additions := additions;
            outputDimensions := outputDimensions |}.

(** A shape with integer dimensions. *)
Definition shape (r c : Z) : MatrixDimensions :=
  {| rows := ofZ r; cols := ofZ c |}.

(* ================================================================== *)
(** * Number.prototype.toFixed *)
(* ================================================================== *)

Local Open Scope string_scope.

(** The decimal digits of a natural number; ["0"] for zero. *)
Definition digits (n : N) : string := NilZero.string_of_uint (N.to_uint n).

Fixpoint zeros (k : nat) : string :=
  match k with
  | O => ""
  | S k' => String "0" (zeros k')
  end.

(** [s.padStart(len, "0")]. *)
Definition padStart (len : nat) (s : string) : string :=
  zeros (len - String.length s) ++ s.

(** [s] without its trailing zeros. *)
Fixpoint stripTrailingZeros (s : string) : string :=
  match s with
  | EmptyString => EmptyString
  | String c r =>
      match stripTrailingZeros r with
      | EmptyString => if Ascii.eqb c "0" then EmptyString else String c ""
      | r' => String c r'
      end
  end.

(** [Number::toString] of a finite magnitude [n/d >= 10^21], which prints
    in exponent form [d.ddd...e+XX].  ECMAScript prints the fewest digits
    that identify the double; without binary64 rounding the model prints the
    value to 17 significant digits (round half up) and drops trailing
    zeros, which is the same string whenever the value has at most 17
    significant digits. *)
Definition toString_large (n : N) (d : positive) : string :=
  let e := String.length (digits (n / Npos d)) in
  let scale := (10 ^ N.of_nat (e - 17))%N in
  let s17 := ((2 * n + Npos d * scale) / (2 * Npos d * scale))%N in
  let '(s17, e) :=
    if (10 ^ 17 <=? s17)%N then ((s17 / 10)%N, S e) else (s17, e) in
  let ds := stripTrailingZeros (digits s17) in
  substring 0 1 ds
  ++ (if Nat.eqb (String.length ds) 1 then ""
      else "." ++ substring 1 (String.length ds - 1) ds)
  ++ "e+" ++ digits (N.of_nat (e - 1)).

(** [x.toFixed(f)], for [0 <= f <= 100] (the source uses 6 and 3, so the
    RangeError of other arguments does not arise).  For a finite [x] below
    10^21 in magnitude, the integer [k] nearest to [x * 10^f] (the larger one
    on a tie) is printed with [f] digits after the point. *)
Definition toFixed (x : number) (f : nat) : string :=
  match x with
  | NaN => "NaN"
  | Inf s => if s then "-Infinity" else "Infinity"
  | Fin s n d =>
      let sign := if s && negb (n =? 0)%N then "-" else "" in
      if (10 ^ 21 * Npos d <=? n)%N then sign ++ toString_large n d
      else
        let k := ((2 * n * 10 ^ N.of_nat f + Npos d) / (2 * Npos d))%N in
        let m := digits k in
        let m :=
          if Nat.eqb f 0 then m
          else
            let m := padStart (S f) m in
            let k := String.length m in
            substring 0 (k - f) m ++ "." ++ substring (k - f) f m in
        sign ++ m
  end.

(* ================================================================== *)
(** * MatrixFlopsCalculator: precisions and the time estimate *)
(* ================================================================== *)

Record ExecutionTime : Type := {
  seconds : number;
  milliseconds : number;
  microseconds : number;
  nanoseconds : number;
  formatted : string
}.

Record PrecisionType : Type := {
  value : string;
  label : string;
  multiplier : number;  (* Multiplier relative to FP32 (1.0 = FP32) *)
  description : string
}.

Definition fp32 : PrecisionType :=
  {| value := "fp32"; label := "FP32 (Single Precision)";
     multiplier := ofQ 1.0;
     description := "32-bit floating point (default)" |}.

Definition fp16 : PrecisionType :=
  {| value := "fp16"; label := "FP16 (Half Precision)";
     multiplier := ofQ 2.0;
     description := "16-bit floating point (~2x faster)" |}.

Definition bf16 : PrecisionType :=
  {| value := "bf16"; label := "BF16 (BFloat16)";
     multiplier := ofQ 2.0;
     description := "Brain Float 16-bit (~2x faster)" |}.

Definition int8 : PrecisionType :=
  {| value := "int8"; label := "INT8 (8-bit Integer)";
     multiplier := ofQ 4.0;
     description := "8-bit integer quantization (~4x faster)" |}.

Definition int4 : PrecisionType :=
  {| value := "int4"; label := "INT4 (4-bit Integer)";
     multiplier := ofQ 8.0;
     description := "4-bit integer quantization (~8x faster)" |}.

Definition fp64 : PrecisionType :=
  {| value := "fp64"; label := "FP64 (Double Precision)";
     multiplier := ofQ 0.5;
     description := "64-bit floating point (~2x slower)" |}.

Definition precisionTypes : list PrecisionType :=
  [fp32; fp16; bf16; int8; int4; fp64].

(** Get adjusted TFLOPS based on precision. *)
Definition getAdjustedTflops (baseTflops : number) (precision : PrecisionType)
  : number :=
  (baseTflops * multiplier precision)%js.

(** The literals [1e12] and [1000]. *)
Definition _1e12 : number := ofZ (10 ^ 12).
Definition _1000 : number := ofZ 1000.

(** [calculateExecutionTime(totalFlops, gpuTflops, precision)].  The source
    declares [precision = precisionTypes[0]] as the default of the third
    parameter; the embedding takes the precision explicitly, as the call
    site of the component does.  The function has no [throw] and no [null]
    result: its type is [ExecutionTime]. *)
Definition calculateExecutionTime
  (totalFlops gpuTflops : number) (precision : PrecisionType)
  : ExecutionTime :=
  let adjustedTflops := getAdjustedTflops gpuTflops precision in
  let seconds := (totalFlops / (adjustedTflops * _1e12))%js in
  let milliseconds := (seconds * _1000)%js in
  let microseconds := (milliseconds * _1000)%js in
  let nanoseconds := (microseconds * _1000)%js in
  let formatted :=
    if (seconds >= one)%js then toFixed seconds 6 ++ " s"
    else if (milliseconds >= one)%js then toFixed milliseconds 6 ++ " ms"
    else if (microseconds >= one)%js then toFixed microseconds 6 ++ " μs"
    else toFixed nanoseconds 3 ++ " ns" in
  {| seconds := seconds;
     milliseconds := milliseconds;
     microseconds := microseconds;
     nanoseconds := nanoseconds;
     formatted := formatted |}.

(** The call that omits the third argument. *)
Definition calculateExecutionTime_default (totalFlops gpuTflops : number)
  : ExecutionTime :=
  calculateExecutionTime totalFlops gpuTflops (hd fp32 precisionTypes).

(* ================================================================== *)
(** * data/nvidiaGpus: the device catalog *)
(* ================================================================== *)

Record NvidiaGpu : Type := {
  name : string;
  series : string;
  architecture : string;
  tflops : number;  (* Theoretical peak performance in TFLOPS (FP32) *)
  memory : option string;
  releaseYear : option number
}.

(** An entry with all six fields present, as every entry of the catalog. *)
Definition gpu (name series architecture : string) (tflops : Q)
  (memory : string) (releaseYear : Z) : NvidiaGpu :=
  {| name := name; series := series; architecture := architecture;
     tflops := ofQ tflops; memory := Some memory;
     releaseYear := Some (ofZ releaseYear) |}.

Local Open Scope Q_scope.

Definition nvidiaGpus : list NvidiaGpu := [
  (* Datacenter GPUs - Hopper Architecture *)
  gpu "H100 PCIe" "Hopper" "Hopper" 67 "80GB" 2022;
  gpu "H100 SXM" "Hopper" "Hopper" 67 "80GB" 2022;
  gpu "H100 NVL" "Hopper" "Hopper" 1000 "188GB" 2023;
  (* Datacenter GPUs - Ampere Architecture *)
  gpu "A100 PCIe 40GB" "Ampere" "Ampere" 19.5 "40GB" 2020;
  gpu "A100 PCIe 80GB" "Ampere" "Ampere" 19.5 "80GB" 2020;
  gpu "A100 SXM 40GB" "Ampere" "Ampere" 19.5 "40GB" 2020;
  gpu "A100 SXM 80GB" "Ampere" "Ampere" 19.5 "80GB" 2020;
  (* Datacenter GPUs - Ada Lovelace Architecture *)
  gpu "L40" "Ada Lovelace" "Ada Lovelace" 48.7 "48GB" 2022;
  gpu "L40S" "Ada Lovelace" "Ada Lovelace" 91.6 "48GB" 2023;
  gpu "L4" "Ada Lovelace" "Ada Lovelace" 30.3 "24GB" 2022;
  (* Datacenter GPUs - Volta Architecture *)
  gpu "V100 PCIe 16GB" "Volta" "Volta" 15.7 "16GB" 2017;
  gpu "V100 PCIe 32GB" "Volta" "Volta" 15.7 "32GB" 2017;
  gpu "V100 SXM 16GB" "Volta" "Volta" 15.7 "16GB" 2017;
  gpu "V100 SXM 32GB" "Volta" "Volta" 15.7 "32GB" 2017;
  (* Datacenter GPUs - Pascal Architecture *)
  gpu "P100 PCIe" "Pascal" "Pascal" 9.3 "16GB" 2016;
  gpu "P100 SXM" "Pascal" "Pascal" 10.6 "16GB" 2016;
  (* GeForce RTX 40 Series - Ada Lovelace *)
  gpu "RTX 4090" "GeForce RTX 40" "Ada Lovelace" 83 "24GB" 2022;
  gpu "RTX 4080" "GeForce RTX 40" "Ada Lovelace" 48.7 "16GB" 2022;
  gpu "RTX 4070 Ti" "GeForce RTX 40" "Ada Lovelace" 40.1 "12GB" 2023;
  gpu "RTX 4070" "GeForce RTX 40" "Ada Lovelace" 29.1 "12GB" 2023;
  gpu "RTX 4060 Ti 16GB" "GeForce RTX 40" "Ada Lovelace" 22.1 "16GB" 2023;
  gpu "RTX 4060 Ti 8GB" "GeForce RTX 40" "Ada Lovelace" 22.1 "8GB" 2023;
  gpu "RTX 4060" "GeForce RTX 40" "Ada Lovelace" 15.1 "8GB" 2023;
  (* GeForce RTX 30 Series - Ampere *)
  gpu "RTX 3090 Ti" "GeForce RTX 30" "Ampere" 40 "24GB" 2022;
  gpu "RTX 3090" "GeForce RTX 30" "Ampere" 36 "24GB" 2020;
  gpu "RTX 3080 Ti" "GeForce RTX 30" "Ampere" 34.1 "12GB" 2021;
  gpu "RTX 3080 12GB" "GeForce RTX 30" "Ampere" 30.6 "12GB" 2022;
  gpu "RTX 3080 10GB" "GeForce RTX 30" "Ampere" 29.8 "10GB" 2020;
  gpu "RTX 3070 Ti" "GeForce RTX 30" "Ampere" 21.7 "8GB" 2021;
  gpu "RTX 3070" "GeForce RTX 30" "Ampere" 20.3 "8GB" 2020;
  gpu "RTX 3060 Ti" "GeForce RTX 30" "Ampere" 16.2 "8GB" 2020;
  gpu "RTX 3060 12GB" "GeForce RTX 30" "Ampere" 12.7 "12GB" 2021;
  gpu "RTX 3060 8GB" "GeForce RTX 30" "Ampere" 12.7 "8GB" 2022;
  gpu "RTX 3050" "GeForce RTX 30" "Ampere" 9.1 "8GB" 2022;
  (* GeForce RTX 20 Series - Turing *)
  gpu "RTX 2080 Ti" "GeForce RTX 20" "Turing" 13.4 "11GB" 2018;
  gpu "RTX 2080 Super" "GeForce RTX 20" "Turing" 11.1 "8GB" 2019;
  gpu "RTX 2080" "GeForce RTX 20" "Turing" 10.1 "8GB" 2018;
  gpu "RTX 2070 Super" "GeForce RTX 20" "Turing" 9.1 "8GB" 2019;
  gpu "RTX 2070" "GeForce RTX 20" "Turing" 7.9 "8GB" 2018;
  gpu "RTX 2060 Super" "GeForce RTX 20" "Turing" 7.2 "8GB" 2019;
  gpu "RTX 2060" "GeForce RTX 20" "Turing" 6.5 "6GB" 2019;
  (* GeForce GTX 16 Series - Turing *)
  gpu "GTX 1660 Ti" "GeForce GTX 16" "Turing" 5.5 "6GB" 2019;
  gpu "GTX 1660 Super" "GeForce GTX 16" "Turing" 5.0 "6GB" 2019;
  gpu "GTX 1660" "GeForce GTX 16" "Turing" 4.6 "6GB" 2019;
  gpu "GTX 1650 Super" "GeForce GTX 16" "Turing" 4.4 "4GB" 2019;
  gpu "GTX 1650" "GeForce GTX 16" "Turing" 3.0 "4GB" 2019;
  (* GeForce 10 Series - Pascal *)
  gpu "GTX 1080 Ti" "GeForce 10" "Pascal" 11.3 "11GB" 2017;
  gpu "GTX 1080" "GeForce 10" "Pascal" 8.9 "8GB" 2016;
  gpu "GTX 1070 Ti" "GeForce 10" "Pascal" 8.2 "8GB" 2017;
  gpu "GTX 1070" "GeForce 10" "Pascal" 6.5 "8GB" 2016;
  gpu "GTX 1060 6GB" "GeForce 10" "Pascal" 4.4 "6GB" 2016;
  gpu "GTX 1060 3GB" "GeForce 10" "Pascal" 3.9 "3GB" 2016;
  gpu "GTX 1050 Ti" "GeForce 10" "Pascal" 2.1 "4GB" 2016;
  gpu "GTX 1050" "GeForce 10" "Pascal" 1.8 "2GB" 2016;
  (* Quadro RTX Series - Turing *)
  gpu "Quadro RTX 8000" "Quadro RTX" "Turing" 16.3 "48GB" 2018;
  gpu "Quadro RTX 6000" "Quadro RTX" "Turing" 16.3 "24GB" 2018;
  gpu "Quadro RTX 5000" "Quadro RTX" "Turing" 11.2 "16GB" 2018;
  gpu "Quadro RTX 4000" "Quadro RTX" "Turing" 7.1 "8GB" 2018;
  (* Quadro RTX Series - Ampere *)
  gpu "RTX A6000" "Quadro RTX" "Ampere" 38.7 "48GB" 2020;
  gpu "RTX A5000" "Quadro RTX" "Ampere" 27.8 "24GB" 2021;
  gpu "RTX A4000" "Quadro RTX" "Ampere" 19.2 "16GB" 2021;
  gpu "RTX A2000" "Quadro RTX" "Ampere" 8.0 "6GB" 2021;
  (* Quadro RTX Series - Ada Lovelace *)
  gpu "RTX 6000 Ada" "Quadro RTX" "Ada Lovelace" 91.6 "48GB" 2022;
  gpu "RTX 5000 Ada" "Quadro RTX" "Ada Lovelace" 30.3 "32GB" 2022;
  gpu "RTX 4000 Ada" "Quadro RTX" "Ada Lovelace" 24.7 "20GB" 2023;
  gpu "RTX 4000 SFF Ada" "Quadro RTX" "Ada Lovelace" 19.2 "20GB" 2023;
  (* Quadro Series - Pascal *)
  gpu "Quadro P6000" "Quadro" "Pascal" 12 "24GB" 2016;
  gpu "Quadro P5000" "Quadro" "Pascal" 8.9 "16GB" 2016;
  gpu "Quadro P4000" "Quadro" "Pascal" 5.3 "8GB" 2016;
  gpu "Quadro P2000" "Quadro" "Pascal" 3.0 "5GB" 2017;
  gpu "Quadro P1000" "Quadro" "Pascal" 1.9 "4GB" 2017;
  (* Quadro Series - Volta *)
  gpu "Quadro GV100" "Quadro" "Volta" 14.8 "32GB" 2018;
  (* Tesla Series - Ampere *)
  gpu "Tesla A100 40GB" "Tesla" "Ampere" 19.5 "40GB" 2020;
  gpu "Tesla A100 80GB" "Tesla" "Ampere" 19.5 "80GB" 2020;
  (* Tesla Series - Volta *)
  gpu "Tesla V100 PCIe" "Tesla" "Volta" 15.7 "32GB" 2017;
  gpu "Tesla V100 SXM" "Tesla" "Volta" 15.7 "32GB" 2017;
  (* Tesla Series - Pascal *)
  gpu "Tesla P100" "Tesla" "Pascal" 10.6 "16GB" 2016;
  gpu "Tesla P40" "Tesla" "Pascal" 12 "24GB" 2016;
  gpu "Tesla P4" "Tesla" "Pascal" 5.5 "8GB" 2016;
  (* TITAN Series *)
  gpu "TITAN RTX" "TITAN" "Turing" 16.3 "24GB" 2018;
  gpu "TITAN V" "TITAN" "Volta" 15 "12GB" 2017;
  gpu "TITAN Xp" "TITAN" "Pascal" 12.1 "12GB" 2017;
  gpu "TITAN X (Pascal)" "TITAN" "Pascal" 10.97 "12GB" 2016;
  (* GeForce 9 Series - Maxwell *)
  gpu "GTX 980 Ti" "GeForce 9" "Maxwell" 5.6 "6GB" 2015;
  gpu "GTX 980" "GeForce 9" "Maxwell" 4.6 "4GB" 2014;
  gpu "GTX 970" "GeForce 9" "Maxwell" 3.5 "4GB" 2014;
  gpu "GTX 960" "GeForce 9" "Maxwell" 2.3 "2GB" 2015;
  gpu "GTX 950" "GeForce 9" "Maxwell" 1.8 "2GB" 2015;
  (* Jetson Series (Edge AI) *)
  gpu "Jetson AGX Orin" "Jetson" "Ampere" 5.3 "32GB" 2022;
  gpu "Jetson AGX Xavier" "Jetson" "Volta" 1.4 "32GB" 2018;
  gpu "Jetson Xavier NX" "Jetson" "Volta" 1.4 "16GB" 2020
  (* Sort GPUs within each series by TFLOPS (descending) *)
].

Local Close Scope Q_scope.

(* ================================================================== *)
(** * data/nvidiaGpus: grouping by series *)
(* ================================================================== *)

(** A plain object used as a map from string keys to values: its own
    properties, in insertion order.  (The order in which ECMAScript
    enumerates integer-like keys differs; no series label is one.) *)
Definition Object_ (V : Type) : Type := list (string * V).

Section Objects.
Context {V : Type}.

(** The own property [k] of [o]. *)
Fixpoint getOwn (k : string) (o : Object_ V) : option V :=
  match o with
  | [] => None
  | (k', v) :: o' => if String.eqb k k' then Some v else getOwn k o'
  end.

(** [o[k] = v]: overwrite in place, or add the property at the end. *)
Fixpoint setOwn (k : string) (v : V) (o : Object_ V) : Object_ V :=
  match o with
  | [] => [(k, v)]
  | (k', v') :: o' =>
      if String.eqb k k' then (k', v) :: o'
      else (k', v') :: setOwn k v o'
  end.

Definition keys (o : Object_ V) : list string := map fst o.
End Objects.

(** The property names every plain object inherits from
    [Object.prototype].  Reading one of them from [{}] yields a truthy value
    that is not an array. *)
Definition objectPrototypeKeys : list string :=
  ["constructor"; "hasOwnProperty"; "isPrototypeOf"; "propertyIsEnumerable";
   "toLocaleString"; "toString"; "valueOf"; "__proto__";
   "__defineGetter__"; "__defineSetter__";
   "__lookupGetter__"; "__lookupSetter__"].

Definition inherited (k : string) : bool :=
  existsb (String.eqb k) objectPrototypeKeys.

(** The body of the first [forEach]:
    [if (!grouped[gpu.series]) grouped[gpu.series] = [];
     grouped[gpu.series].push(gpu)].
    [None] is the TypeError of calling [push] on an inherited member. *)
Definition groupStep (grouped : Object_ (list NvidiaGpu)) (g : NvidiaGpu)
  : option (Object_ (list NvidiaGpu)) :=
  match getOwn (series g) grouped with
  | Some gs => Some (setOwn (series g) (gs ++ [g])%list grouped)
  | None =>
      if inherited (series g) then None
      else Some (setOwn (series g) ([] ++ [g])%list grouped)
  end.

Fixpoint groupAll (grouped : Object_ (list NvidiaGpu)) (gpus : list NvidiaGpu)
  : option (Object_ (list NvidiaGpu)) :=
  match gpus with
  | [] => Some grouped
  | g :: gpus' =>
      match groupStep grouped g with
      | Some grouped' => groupAll grouped' gpus'
      | None => None
      end
  end.

Section Sort.
Context {A : Type}.
Variable comparefn : A -> A -> number.

(** [Array.prototype.sort(comparefn)] is stable (ES2019): for a consistent
    comparator its result is the one stable sorted arrangement, which
    insertion from the right computes.  [x] goes after [y] only when
    [comparefn(x, y) > 0]; a NaN result counts as [+0]. *)
Fixpoint insert (x : A) (l : list A) : list A :=
  match l with
  | [] => [x]
  | y :: l' =>
      if gt (comparefn x y) zero then y :: insert x l'
      else x :: y :: l'
  end.

Fixpoint sort (l : list A) : list A :=
  match l with
  | [] => []
  | x :: l' => insert x (sort l')
  end.
End Sort.

(** [(a, b) => b.tflops - a.tflops]. *)
Definition byTflopsDescending (a b : NvidiaGpu) : number :=
  (tflops b - tflops a)%js.

(** [getGpusBySeries] over a given catalog array. *)
Definition groupBySeries (gpus : list NvidiaGpu)
  : option (Object_ (list NvidiaGpu)) :=
  match groupAll [] gpus with
  | Some grouped =>
      Some (map (fun kv => (fst kv, sort byTflopsDescending (snd kv))) grouped)
  | None => None
  end.

(** Helper function to get GPUs grouped by series. *)
Definition getGpusBySeries : option (Object_ (list NvidiaGpu)) :=
  groupBySeries nvidiaGpus.

(** Helper function to find GPU by name. *)
Definition findGpuByName (name' : string) : option NvidiaGpu :=
  find (fun g => String.eqb (name g) name') nvidiaGpus.

(** Descending order of peak throughput. *)
Definition tflops_ge (a b : NvidiaGpu) : Prop :=
  ge (tflops a) (tflops b) = true.

(** The peak throughput of [g] is a finite number. *)
Definition finite_tflops (g : NvidiaGpu) : Prop :=
  is_finite (tflops g) = true.

(** All the devices held by the groups. *)
Definition members (grouped : Object_ (list NvidiaGpu)) : list NvidiaGpu :=
  List.concat (map snd grouped).

(** Every device of a group carries the label of the group. *)
Definition labelled (grouped : Object_ (list NvidiaGpu)) : Prop :=
  forall k gs g, In (k, gs) grouped -> In g gs -> series g = k.

(** A call of [getGpusBySeries] against the module state, which holds the
    catalog array.  The call reads the array; the arrays it sorts in place
    are the group arrays it has just built, so the catalog is left as it
    was. *)
Definition getGpusBySeries_call (catalog : list NvidiaGpu)
  : option (Object_ (list NvidiaGpu)) * list NvidiaGpu :=
  (groupBySeries catalog, catalog).

(** No string occurs twice in [l]. *)
Fixpoint distinct (l : list string) : bool :=
  match l with
  | [] => true
  | x :: l' => negb (existsb (String.eqb x) l') && distinct l'
  end.

(** [s] consists of decimal digits only. *)
Fixpoint allDigits (s : string) : bool :=
  match s with
  | EmptyString => true
  | String c r =>
      (48 <=? nat_of_ascii c)%nat && (nat_of_ascii c <=? 57)%nat
      && allDigits r
  end.

(** [x] is finite and below 10^21 in magnitude: the range in which
    [toFixed] prints fixed notation. *)
Definition inFixedRange (x : number) : bool :=
  match x with
  | Fin _ n d => (n <? 10 ^ 21 * Npos d)%N
  | _ => false
  end.

(** [str] is an optional minus sign, one or more digits, a point and
    exactly [f] digits. *)
Definition decimalNotation (f : nat) (str : string) : Prop :=
  exists sign a b,
    str = sign ++ a ++ "." ++ b
    /\ (sign = "" \/ sign = "-")
    /\ a <> "" /\ allDigits a = true
    /\ allDigits b = true /\ String.length b = f.

(** [x] is finite and its value is the integer [z]. *)
Definition int_value (x : number) (z : Z) : Prop :=
  match x with
  | Fin s n d => signed s n = z * Zpos d
  | _ => False
  end.

Local Close Scope string_scope.

(* ================================================================== *)
(** * Facts about numbers *)
(* ================================================================== *)

Section NumberFacts.

Lemma compare_refl_Fin s n d : JS.compare (Fin s n d) (Fin s n d) = Some Eq.
Proof. simpl. now rewrite Z.compare_refl. Qed.

Lemma strict_neq_ofZ_refl z : (ofZ z !== ofZ z)%js = false.
Proof.
  unfold strict_neq, strict_eq, ofZ. now rewrite compare_refl_Fin.
Qed.

Lemma signed_ofZ z : signed (z <? 0) (Z.abs_N z) = z.
Proof.
  unfold signed. destruct (Z.ltb_spec z 0); rewrite N2Z.inj_abs_N; lia.
Qed.

Lemma compare_ofZ a b : JS.compare (ofZ a) (ofZ b) = Some (a ?= b).
Proof.
  unfold ofZ, JS.compare. now rewrite !signed_ofZ, !Z.mul_1_r.
Qed.

Lemma strict_neq_ofZ a b : (ofZ a !== ofZ b)%js = negb (a =? b).
Proof.
  unfold strict_neq, strict_eq. rewrite compare_ofZ.
  destruct (Z.compare_spec a b); destruct (Z.eqb_spec a b);
    simpl; try reflexivity; lia.
Qed.

Lemma lt_ofZ a b : lt (ofZ a) (ofZ b) = (a <? b).
Proof.
  unfold lt. rewrite compare_ofZ. unfold Z.ltb.
  destruct (a ?= b); reflexivity.
Qed.

(** Integer products are exact; the sign of a zero product is that of
    IEEE, so the equation needs a zero factor to meet a non-negative
    one. *)
Lemma mul_ofZ a b :
  (a = 0 -> 0 <= b) -> (b = 0 -> 0 <= a) ->
  (ofZ a * ofZ b)%js = ofZ (a * b).
Proof.
  intros Ha Hb. unfold ofZ, mul. f_equal.
  - destruct (Z.ltb_spec a 0), (Z.ltb_spec b 0), (Z.ltb_spec (a * b) 0);
      simpl; try reflexivity; nia.
  - now rewrite Zabs2N.inj_mul.
Qed.

Lemma add_ofZ a b : (ofZ a + ofZ b)%js = ofZ (a + b).
Proof.
  unfold ofZ, add. cbv zeta.
  rewrite !N.mul_1_r. change (1 * 1)%positive with 1%positive.
  destruct (Z.ltb_spec a 0), (Z.ltb_spec b 0); simpl Bool.eqb; cbv iota.
  - replace (a + b <? 0) with true by (symmetry; apply Z.ltb_lt; lia).
    f_equal. lia.
  - destruct (N.compare_spec (Z.abs_N a) (Z.abs_N b)) as [E|L|G].
    + replace (a + b) with 0 by lia. reflexivity.
    + replace (a + b <? 0) with false by (symmetry; apply Z.ltb_ge; lia).
      f_equal. lia.
    + replace (a + b <? 0) with true by (symmetry; apply Z.ltb_lt; lia).
      f_equal. lia.
  - destruct (N.compare_spec (Z.abs_N a) (Z.abs_N b)) as [E|L|G].
    + replace (a + b) with 0 by lia. reflexivity.
    + replace (a + b <? 0) with true by (symmetry; apply Z.ltb_lt; lia).
      f_equal. lia.
    + replace (a + b <? 0) with false by (symmetry; apply Z.ltb_ge; lia).
      f_equal. lia.
  - replace (a + b <? 0) with false by (symmetry; apply Z.ltb_ge; lia).
    f_equal. lia.
Qed.

Lemma sub_ofZ a b : (ofZ a - ofZ b)%js = ofZ (a - b).
Proof.
  destruct (Z.eq_dec b 0) as [->|Hb].
  - rewrite Z.sub_0_r. unfold sub.
    change (neg (ofZ 0)) with (Fin true 0 1). unfold ofZ, add. cbv zeta.
    rewrite N.mul_1_r, N.mul_0_l.
    change (1 * 1)%positive with 1%positive.
    destruct (Z.ltb_spec a 0); simpl Bool.eqb; cbv iota.
    + f_equal. lia.
    + destruct (N.compare_spec (Z.abs_N a) 0) as [E|L|G].
      * now rewrite E.
      * lia.
      * f_equal. lia.
  - replace (a - b) with (a + - b) by lia. rewrite <- add_ofZ.
    unfold sub. f_equal. unfold ofZ, neg. f_equal.
    + destruct (Z.ltb_spec b 0), (Z.ltb_spec (- b) 0);
        simpl; try reflexivity; lia.
    + lia.
Qed.

End NumberFacts.

Section IntegerValues.

Lemma signed_mul s1 n1 s2 n2 :
  signed (xorb s1 s2) (n1 * n2) = signed s1 n1 * signed s2 n2.
Proof.
  unfold signed. rewrite N2Z.inj_mul. destruct s1, s2; simpl; lia.
Qed.

Lemma int_value_ofZ z : int_value (ofZ z) z.
Proof. unfold int_value, ofZ. rewrite signed_ofZ. lia. Qed.

Lemma int_value_mul x y a b :
  int_value x a -> int_value y b -> int_value (x * y)%js (a * b).
Proof.
  destruct x as [|s1|s1 n1 d1], y as [|s2|s2 n2 d2]; simpl; try tauto.
  intros Ha Hb. rewrite signed_mul, Ha, Hb, Pos2Z.inj_mul. ring.
Qed.

Lemma int_value_neg x a : int_value x a -> int_value (neg x) (- a).
Proof.
  destruct x as [|s|s n d]; simpl; try tauto.
  unfold signed. destruct s; simpl; lia.
Qed.

Lemma int_value_add x y a b :
  int_value x a -> int_value y b -> int_value (x + y)%js (a + b).
Proof.
  destruct x as [|s1|s1 n1 d1], y as [|s2|s2 n2 d2]; simpl; try tauto.
  intros Ha Hb.
  assert (E1 : signed s1 (n1 * Npos d2) = a * Zpos (d1 * d2)).
  { replace (signed s1 (n1 * Npos d2)) with (signed s1 n1 * Zpos d2).
    - rewrite Ha, Pos2Z.inj_mul. ring.
    - unfold signed. rewrite N2Z.inj_mul. destruct s1; simpl; lia. }
  assert (E2 : signed s2 (n2 * Npos d1) = b * Zpos (d1 * d2)).
  { replace (signed s2 (n2 * Npos d1)) with (signed s2 n2 * Zpos d1).
    - rewrite Hb, Pos2Z.inj_mul. ring.
    - unfold signed. rewrite N2Z.inj_mul. destruct s2; simpl; lia. }
  destruct s1, s2; simpl Bool.eqb; cbv iota;
    try destruct (N.compare_spec (n1 * Npos d2) (n2 * Npos d1));
    unfold int_value, signed in *; lia.
Qed.

Lemma int_value_sub x y a b :
  int_value x a -> int_value y b -> int_value (x - y)%js (a - b).
Proof.
  intros Ha Hb. unfold sub. replace (a - b) with (a + - b) by lia.
  apply int_value_add; [assumption | now apply int_value_neg].
Qed.

End IntegerValues.

(* ================================================================== *)
(** * The FLOPs engine *)
(* ================================================================== *)

Example calculateFlops_3x4_4x5 :
  calculateFlops (shape 3 4) (shape 4 5)
  = Some {| totalFlops := ofZ 105; multiplications := ofZ 60;
            additions := ofZ 45; outputDimensions := shape 3 5 |}.
Proof. reflexivity. Qed.

Example calculateFlops_2x3_5x2 :
  calculateFlops (shape 2 3) (shape 5 2) = None.
Proof. reflexivity. Qed.

Example calculateFlops_1x1_1x1 :
  calculateFlops (shape 1 1) (shape 1 1)
  = Some {| totalFlops := ofZ 1; multiplications := ofZ 1;
            additions := ofZ 0; outputDimensions := shape 1 1 |}.
Proof. reflexivity. Qed.

(** The result of [calculateFlops] on integer shapes with matching inner
    dimensions, whatever the signs of the dimensions. *)
Lemma calculateFlops_integers (m n p : Z) :
  exists r,
    calculateFlops (shape m n) (shape n p) = Some r
    /\ int_value (multiplications r) (m * p * n)
    /\ int_value (additions r) (m * p * (n - 1))
    /\ int_value (totalFlops r) (m * p * n + m * p * (n - 1))
    /\ outputDimensions r = shape m p.
Proof.
  unfold calculateFlops, shape. cbn [rows cols].
  rewrite strict_neq_ofZ_refl. eexists. split; [reflexivity|].
  cbn [multiplications additions totalFlops outputDimensions].
  assert (Hmul : int_value (ofZ m * ofZ p * ofZ n)%js (m * p * n))
    by (repeat apply int_value_mul; apply int_value_ofZ).
  assert (Hadd : int_value (ofZ m * ofZ p * (ofZ n - ofZ 1))%js
                           (m * p * (n - 1))).
  { repeat apply int_value_mul; try apply int_value_ofZ.
    apply int_value_sub; apply int_value_ofZ. }
  repeat split; try assumption.
  now apply int_value_add.
Qed.





(** [null] is returned exactly when the inner dimensions differ. *)
Lemma calculateFlops_null_iff (a b : MatrixDimensions) :
  calculateFlops a b = None <-> (cols a !== rows b)%js = true.
Proof.
  unfold calculateFlops. destruct (cols a !== rows b)%js; split;
    intros H; try reflexivity; discriminate H.
Qed.

(** C5 as stated fails: the failure result is the bare [null], the same for
    every pair of incompatible shapes, so the shapes cannot be read back
    from it. *)
Lemma calculateFlops_null_carries_no_shapes :
  ~ exists shapesOf : option FlopsResult -> MatrixDimensions * MatrixDimensions,
      forall a b, (cols a !== rows b)%js = true ->
                  shapesOf (calculateFlops a b) = (a, b).
Proof.
  intros [shapesOf H].
  pose proof (H (shape 2 3) (shape 5 2) eq_refl) as H1.
  pose proof (H (shape 1 2) (shape 3 4) eq_refl) as H2.
  change (calculateFlops (shape 2 3) (shape 5 2)) with (@None FlopsResult)
    in H1.
  change (calculateFlops (shape 1 2) (shape 3 4)) with (@None FlopsResult)
    in H2.
  rewrite H1 in H2. discriminate H2.
Qed.

(** C5, amended.  For all shapes with [a.cols !== b.rows], [calculateFlops]
    returns no [FlopsResult]: it returns [null]. *)
Theorem calculateFlops_mismatch (a b : MatrixDimensions) :
  (cols a !== rows b)%js = true -> calculateFlops a b = None.
Proof.
  intros H. unfold calculateFlops. now rewrite H.
Qed.

Lemma calculateFlops_mismatch_witness :
  calculateFlops (shape 2 3) (shape 5 2) = None.
Proof.
  apply (calculateFlops_mismatch (shape 2 3) (shape 5 2)). reflexivity.
Defined.




(* ================================================================== *)
(** * The execution-time estimate *)
(* ================================================================== *)

Section CompareFacts.

(** A number greater than zero is [Infinity] or a positive fraction. *)
Lemma gt_zero_inv x :
  gt x zero = true ->
  x = Inf false \/ exists n d, x = Fin false n d /\ (0 < n)%N.
Proof.
  destruct x as [|s|s n d]; unfold gt; simpl.
  - discriminate.
  - destruct s; [discriminate | now left].
  - intros H. right. exists n, d.
    destruct (Z.compare_spec (signed s n * 1) 0) as [E|L|G];
      try discriminate H.
    unfold signed in G. destruct s; [lia|]. split; [reflexivity | lia].
Qed.

(** A number that [===] zero is one of the two zeros. *)
Lemma strict_eq_zero_inv x :
  strict_eq x zero = true -> exists s d, x = Fin s 0 d.
Proof.
  destruct x as [|s|s n d]; unfold strict_eq; simpl.
  - discriminate.
  - destruct s; discriminate.
  - intros H. exists s, d.
    destruct (Z.compare_spec (signed s n * 1) 0) as [E|L|G];
      try discriminate H.
    unfold signed in E. f_equal. destruct s; lia.
Qed.

End CompareFacts.

Section ToFixedFacts.
Local Open Scope string_scope.

Lemma length_zeros k : String.length (zeros k) = k.
Proof. induction k; simpl; congruence. Qed.

Lemma zeros_snoc k : zeros k ++ "0" = String "0" (zeros k).
Proof. induction k; simpl; congruence. Qed.

Lemma substring_0_all s : substring 0 (String.length s) s = s.
Proof. induction s; simpl; congruence. Qed.

(** A zero of either sign prints without a sign. *)
Lemma toFixed_zero s d f :
  toFixed (Fin s 0 d) f
  = if Nat.eqb f 0 then "0" else "0." ++ zeros f.
Proof.
  unfold toFixed. rewrite andb_false_r.
  destruct (N.leb_spec (10 ^ 21 * Npos d) 0) as [H|_]; [lia|].
  rewrite N.mul_0_r, N.mul_0_l, N.add_0_l.
  rewrite N.div_small by lia.
  destruct f as [|f]; [reflexivity|].
  change (digits 0) with "0". unfold padStart.
  cbn [String.length Nat.sub Nat.eqb].
  rewrite zeros_snoc. cbn [String.length]. rewrite length_zeros.
  replace (S (S f) - S f)%nat with 1%nat by lia.
  cbn [substring append].
  pose proof (substring_0_all (zeros (S f))) as E.
  rewrite length_zeros in E. rewrite E. reflexivity.
Qed.

Lemma length_append' (a b : string) :
  String.length (a ++ b) = (String.length a + String.length b)%nat.
Proof. induction a; simpl; congruence. Qed.

Lemma length_substring n m (s : string) :
  (n + m <= String.length s)%nat -> String.length (substring n m s) = m.
Proof.
  revert n m. induction s as [|c s IH]; intros n m H; simpl in H.
  - assert (n = 0 /\ m = 0)%nat as [-> ->] by lia. reflexivity.
  - destruct n as [|n]; simpl.
    + destruct m as [|m]; [reflexivity|]. simpl. f_equal. apply IH. lia.
    + apply IH. lia.
Qed.

Lemma allDigits_append (a b : string) :
  allDigits (a ++ b) = allDigits a && allDigits b.
Proof.
  induction a as [|c a IH]; simpl; [reflexivity|].
  rewrite IH. now rewrite andb_assoc.
Qed.

Lemma allDigits_substring n m (s : string) :
  allDigits s = true -> allDigits (substring n m s) = true.
Proof.
  revert n m. induction s as [|c s IH]; intros n m H.
  - destruct n, m; reflexivity.
  - simpl in H. apply andb_prop in H. destruct H as [Hc Hs].
    destruct n as [|n]; simpl.
    + destruct m as [|m]; [reflexivity|]. simpl. rewrite Hc. now apply IH.
    + now apply IH.
Qed.

Lemma allDigits_zeros k : allDigits (zeros k) = true.
Proof. induction k; simpl; auto. Qed.

Lemma allDigits_digits k : allDigits (digits k) = true.
Proof.
  unfold digits. generalize (N.to_uint k) as u. intros u.
  assert (H : allDigits (NilEmpty.string_of_uint u) = true)
    by (induction u; simpl; auto).
  destruct u; exact H.
Qed.

(** [toFixed] prints fixed notation: for a finite value of magnitude below
    10^21 and [f >= 1], the string is an optional minus sign, at least one
    digit, a point and exactly [f] digits. *)
Lemma toFixed_decimals x f :
  inFixedRange x = true -> f <> 0%nat -> decimalNotation f (toFixed x f).
Proof.
  destruct x as [| |s n d]; try discriminate. simpl inFixedRange.
  intros Hn Hf. apply N.ltb_lt in Hn. unfold toFixed.
  destruct (N.leb_spec (10 ^ 21 * Npos d) n) as [H|_]; [lia|].
  destruct (Nat.eqb_spec f 0) as [E|_]; [contradiction|].
  set (m := padStart (S f) (digits _)).
  assert (Hd : allDigits m = true).
  { unfold m, padStart. rewrite allDigits_append, allDigits_zeros.
    apply allDigits_digits. }
  assert (Hl : (S f <= String.length m)%nat).
  { unfold m, padStart. rewrite length_append', length_zeros. lia. }
  exists (if s && negb (n =? 0)%N then "-" else ""),
         (substring 0 (String.length m - f) m),
         (substring (String.length m - f) f m).
  split; [reflexivity|]. split; [|split; [|split; [|split]]].
  - destruct (s && negb (n =? 0)%N); auto.
  - intros E. apply (f_equal String.length) in E.
    rewrite length_substring in E by lia. simpl in E. lia.
  - now apply allDigits_substring.
  - now apply allDigits_substring.
  - apply length_substring. lia.
Qed.

Example toFixed_examples :
  toFixed (ofQ 51.2820512) 6 = "51.282051"
  /\ toFixed (ofQ 0.0053846) 3 = "0.005"
  /\ toFixed (ofQ 999.9999996) 6 = "1000.000000"
  /\ toFixed (ofQ 2.5) 0 = "3"
  /\ toFixed (ofQ (-0.00001)) 3 = "-0.000"
  /\ toFixed (neg zero) 3 = "0.000"
  /\ toFixed (ofZ (10 ^ 21)) 6 = "1e+21"
  /\ toFixed (ofZ (123456789 * 10 ^ 20)) 6 = "1.23456789e+28"
  /\ toFixed (Inf true) 6 = "-Infinity"
  /\ toFixed NaN 3 = "NaN".
Proof. vm_compute. repeat split. Qed.

End ToFixedFacts.

Example calculateExecutionTime_105_A100_fp32 :
  calculateExecutionTime (ofZ 105) (ofQ 19.5) fp32
  = {| seconds := Fin false 10500 1950000000000000;
       milliseconds := Fin false 10500000 1950000000000000;
       microseconds := Fin false 10500000000 1950000000000000;
       nanoseconds := Fin false 10500000000000 1950000000000000;
       formatted := "0.005 ns" |}.
Proof. vm_compute. reflexivity. Qed.

Example calculateExecutionTime_1e15_A100_fp32 :
  formatted (calculateExecutionTime (ofZ (10 ^ 15)) (ofQ 19.5) fp32)
  = "51.282051 s"%string.
Proof. vm_compute. reflexivity. Qed.

Example calculateExecutionTime_1e12_A100_fp32 :
  formatted (calculateExecutionTime (ofZ (10 ^ 12)) (ofQ 19.5) fp32)
  = "51.282051 ms"%string.
Proof. vm_compute. reflexivity. Qed.

Example calculateExecutionTime_1e9_A100_fp32 :
  formatted (calculateExecutionTime (ofZ (10 ^ 9)) (ofQ 19.5) fp32)
  = "51.282051 μs"%string.
Proof. vm_compute. reflexivity. Qed.

Section ZeroFlops.
Local Open Scope string_scope.

Lemma ge_zero_one s d : (Fin s 0 d >= one)%js = false.
Proof.
  unfold ge, one, ofZ. simpl.
  destruct (Z.compare_spec (signed s 0 * 1) (1 * Zpos d)) as [E|L|G];
    try reflexivity; unfold signed in *; destruct s; simpl in *; lia.
Qed.

Lemma zero_mul_1000 s d : (Fin s 0 d * _1000)%js = Fin s 0 (d * 1).
Proof. unfold _1000, ofZ, mul. simpl. now rewrite xorb_false_r. Qed.

(** When [seconds] is a zero, every test of the unit selection fails and
    the nanosecond branch prints the zero. *)
Lemma formatted_of_zero_seconds F t p s d :
  seconds (calculateExecutionTime F t p) = Fin s 0 d ->
  formatted (calculateExecutionTime F t p) = "0.000 ns".
Proof.
  unfold calculateExecutionTime. cbn [seconds formatted]. intros ->.
  rewrite !zero_mul_1000, !ge_zero_one, toFixed_zero. reflexivity.
Qed.

(** A number that is neither zero nor NaN. *)
Lemma truthy_inv x :
  truthy x = true ->
  (exists s, x = Inf s) \/ exists s n d, x = Fin s n d /\ (n <> 0)%N.
Proof.
  destruct x as [|s|s n d]; simpl; intros H.
  - discriminate.
  - left. now exists s.
  - right. exists s, n, d. split; [reflexivity|].
    destruct (N.eqb_spec n 0); [discriminate | assumption].
Qed.

(** A zero divided by such a number is a zero. *)
Lemma zero_div_truthy s d y :
  truthy y = true -> exists s' d', (Fin s 0 d / y)%js = Fin s' 0 d'.
Proof.
  intros H. destruct (truthy_inv y H) as [[s2 ->]|(s2 & n & d2 & -> & Hn)].
  - now exists (xorb s s2), 1%positive.
  - exists (xorb s s2), (d * den_of n)%positive. simpl.
    destruct (N.eqb_spec n 0) as [E|_]; [contradiction | reflexivity].
Qed.

(** The product of two such numbers is one. *)
Lemma mul_truthy x y :
  truthy x = true -> truthy y = true -> truthy (x * y)%js = true.
Proof.
  intros Hx Hy.
  destruct (truthy_inv x Hx) as [[s1 ->]|(s1 & n1 & d1 & -> & H1)];
    destruct (truthy_inv y Hy) as [[s2 ->]|(s2 & n2 & d2 & -> & H2)]; simpl.
  - reflexivity.
  - destruct (N.eqb_spec n2 0); [contradiction | reflexivity].
  - destruct (N.eqb_spec n1 0); [contradiction | reflexivity].
  - destruct (N.eqb_spec (n1 * n2) 0) as [E|_]; [|reflexivity].
    apply N.eq_mul_0 in E. tauto.
Qed.

(** A positive number is neither zero nor NaN. *)
Lemma gt_zero_truthy x : gt x zero = true -> truthy x = true.
Proof.
  intros H. destruct (gt_zero_inv x H) as [->|(n & d & -> & Hn)]; simpl.
  - reflexivity.
  - destruct (N.eqb_spec n 0); [lia | reflexivity].
Qed.

End ZeroFlops.




(** The same for the devices and precisions of the catalogs, whose
    throughputs and multipliers are positive. *)
Lemma calculateExecutionTime_zero_flops_positive
  (t : number) (p : PrecisionType) :
  gt t zero = true -> gt (multiplier p) zero = true ->
  formatted (calculateExecutionTime zero t p) = "0.000 ns"%string.
Proof.
  intros Ht Hk.
  assert (Hnz : truthy (getAdjustedTflops t p * _1e12)%js = true).
  { apply mul_truthy; [apply mul_truthy; now apply gt_zero_truthy
                      | reflexivity]. }
  destruct (zero_div_truthy false 1 _ Hnz) as (s' & d' & Hs).
  now apply formatted_of_zero_seconds with (s := s') (d := d').
Qed.

(** C4 as stated fails: with a throughput of [0] the function returns an
    [ExecutionTime] whose time is infinite. *)
Lemma calculateExecutionTime_zero_throughput_infinite :
  le (ofZ 0) zero = true
  /\ calculateExecutionTime (ofZ 105) (ofZ 0) fp32
     = {| seconds := Inf false; milliseconds := Inf false;
          microseconds := Inf false; nanoseconds := Inf false;
          formatted := "Infinity s" |}.
Proof. split; vm_compute; reflexivity. Qed.

(** C4, amended.  [calculateExecutionTime] has no failure result.  For
    every [totalFlops] and precision, a throughput [gpuTflops <= 0] is
    divided by like any other: [seconds] is
    [totalFlops / (gpuTflops * multiplier * 1e12)], and with a throughput of
    zero and a finite multiplier that quotient is [Infinity], [-Infinity]
    or NaN. *)
Theorem calculateExecutionTime_nonpositive_throughput
  (F t : number) (p : PrecisionType) :
  le t zero = true ->
  seconds (calculateExecutionTime F t p)
  = (F / (t * multiplier p * _1e12))%js
  /\ (strict_eq t zero = true ->
      is_finite (multiplier p) = true ->
      is_finite (seconds (calculateExecutionTime F t p)) = false).
Proof.
  intros _. split; [reflexivity|].
  intros Ht Hk. destruct (strict_eq_zero_inv t Ht) as (s & d & ->).
  unfold calculateExecutionTime, getAdjustedTflops. cbn [seconds].
  destruct (multiplier p) as [|sk|sk nk dk]; try discriminate Hk.
  destruct F as [|sF|sF nF dF]; simpl; try reflexivity.
  destruct (nF =? 0)%N; reflexivity.
Qed.

Lemma calculateExecutionTime_nonpositive_throughput_witness :
  seconds (calculateExecutionTime (ofZ 105) (ofZ 0) fp32)
  = (ofZ 105 / (ofZ 0 * multiplier fp32 * _1e12))%js
  /\ is_finite (seconds (calculateExecutionTime (ofZ 105) (ofZ 0) fp32))
     = false.
Proof.
  destruct (calculateExecutionTime_nonpositive_throughput
              (ofZ 105) (ofZ 0) fp32) as [H1 H2].
  - reflexivity.
  - split; [exact H1 | apply H2; reflexivity].
Defined.

(** C6.  The formatted string of every result is chosen by testing, in
    this order, [seconds >= 1] (the seconds with 6 decimals and [" s"]),
    then [milliseconds >= 1] (the milliseconds with 6 decimals and [" ms"]),
    then [microseconds >= 1] (the microseconds with 6 decimals and [" μs"]),
    and otherwise the nanoseconds with 3 decimals and [" ns"].  The numerals
    are those of [toFixed], which have exactly that many decimals for every
    finite value below 10^21. *)
Theorem calculateExecutionTime_unit_selection
  (F t : number) (p : PrecisionType) :
  let r := calculateExecutionTime F t p in
  formatted r
  = (if (seconds r >= one)%js then (toFixed (seconds r) 6 ++ " s")%string
     else if (milliseconds r >= one)%js
          then (toFixed (milliseconds r) 6 ++ " ms")%string
     else if (microseconds r >= one)%js
          then (toFixed (microseconds r) 6 ++ " μs")%string
     else (toFixed (nanoseconds r) 3 ++ " ns")%string)
  /\ (inFixedRange (seconds r) = true ->
      decimalNotation 6 (toFixed (seconds r) 6))
  /\ (inFixedRange (milliseconds r) = true ->
      decimalNotation 6 (toFixed (milliseconds r) 6))
  /\ (inFixedRange (microseconds r) = true ->
      decimalNotation 6 (toFixed (microseconds r) 6))
  /\ (inFixedRange (nanoseconds r) = true ->
      decimalNotation 3 (toFixed (nanoseconds r) 3)).
Proof.
  intros r. split; [reflexivity|].
  repeat split; intros H; apply toFixed_decimals; auto.
Qed.

(** The four branches on a value each: 51.282051 in every unit, and a zero
    time. *)
Example calculateExecutionTime_unit_selection_examples :
  map (fun F => formatted (calculateExecutionTime (ofZ F) (ofQ 19.5) fp32))
      [10 ^ 15; 10 ^ 12; 10 ^ 9; 10 ^ 6; 0]
  = ["51.282051 s"; "51.282051 ms"; "51.282051 μs"; "51.282 ns";
     "0.000 ns"]%string.
Proof. vm_compute. reflexivity. Qed.

Section PrecisionScaling.

Lemma same_value_one_inv x :
  (x ≡ one)%js -> exists d, x = Fin false (Npos d) d.
Proof.
  destruct x as [|s|s n d]; simpl; try tauto.
  intros [-> H]. exists d. f_equal. lia.
Qed.

Lemma _1e12_eq : _1e12 = Fin false 1000000000000 1.
Proof. reflexivity. Qed.

Lemma Npos_mul a b : Npos (a * b) = (Npos a * Npos b)%N.
Proof. reflexivity. Qed.

Lemma Npos_den_of n : (n <> 0)%N -> Npos (den_of n) = n.
Proof. destruct n; [congruence | reflexivity]. Qed.

End PrecisionScaling.



(* ================================================================== *)
(** * The catalogs *)
(* ================================================================== *)

Section Catalogs.

Lemma distinct_NoDup l : distinct l = true -> NoDup l.
Proof.
  induction l as [|x l IH]; simpl; intros H; constructor.
  - apply andb_prop in H. destruct H as [H _].
    intros Hin. apply negb_true_iff in H.
    assert (E : existsb (String.eqb x) l = true).
    { apply existsb_exists. exists x. split; [assumption|].
      apply String.eqb_refl. }
    congruence.
  - apply IH. now apply andb_prop in H.
Qed.

Lemma NoDup_of_map {A B} (f : A -> B) (l : list A) :
  NoDup (map f l) -> NoDup l.
Proof.
  induction l as [|x l IH]; simpl; intros H; constructor;
    inversion H as [|? ? Hx Hl]; subst.
  - intros Hin. apply Hx. now apply in_map.
  - now apply IH.
Qed.

Lemma forallb_Forall {A} (f : A -> bool) (l : list A) :
  forallb f l = true -> Forall (fun x => f x = true) l.
Proof.
  intros H. apply Forall_forall. now apply forallb_forall.
Qed.

End Catalogs.

(** C9.  Every entry of [nvidiaGpus] has [tflops > 0] and a name no other
    entry has; every entry of [precisionTypes] has a multiplier [> 0] and a
    [value] no other entry has. *)
Theorem catalogs_well_formed :
  Forall (fun g => gt (tflops g) zero = true) nvidiaGpus
  /\ NoDup (map name nvidiaGpus)
  /\ Forall (fun p => gt (multiplier p) zero = true) precisionTypes
  /\ NoDup (map value precisionTypes).
Proof.
  repeat split.
  - apply forallb_Forall. vm_compute. reflexivity.
  - apply distinct_NoDup. vm_compute. reflexivity.
  - apply forallb_Forall. vm_compute. reflexivity.
  - apply distinct_NoDup. vm_compute. reflexivity.
Qed.

Example nvidiaGpus_length : List.length nvidiaGpus = 91%nat.
Proof. reflexivity. Qed.

Example findGpuByName_A100 :
  option_map tflops (findGpuByName "A100 SXM 80GB") = Some (ofQ 19.5).
Proof. vm_compute. reflexivity. Qed.

(* ================================================================== *)
(** * Grouping by series *)
(* ================================================================== *)

Section ObjectFacts.
Context {V : Type}.
Implicit Types (o : Object_ V) (k : string) (v : V).

Lemma getOwn_Some_In k v o : getOwn k o = Some v -> In (k, v) o.
Proof.
  induction o as [|[k1 v1] o IH]; simpl; [discriminate|].
  destruct (String.eqb_spec k k1) as [->|_].
  - intros [= ->]. now left.
  - intros H. right. now apply IH.
Qed.

Lemma getOwn_None_keys k o : getOwn k o = None -> ~ In k (keys o).
Proof.
  induction o as [|[k1 v1] o IH]; simpl; [tauto|].
  destruct (String.eqb_spec k k1) as [->|Hne]; [discriminate|].
  intros H [E|Hin]; [congruence | now apply IH].
Qed.

Lemma getOwn_In_NoDup k v o :
  NoDup (keys o) -> In (k, v) o -> getOwn k o = Some v.
Proof.
  induction o as [|[k1 v1] o IH]; simpl; [tauto|].
  intros Hnd [[= -> ->]|Hin].
  - now rewrite String.eqb_refl.
  - inversion Hnd as [|? ? Hk1 Hnd']; subst.
    destruct (String.eqb_spec k k1) as [->|_]; [|now apply IH].
    exfalso. apply Hk1. change k1 with (fst (k1, v)). now apply in_map.
Qed.

Lemma setOwn_fresh k v o :
  getOwn k o = None -> setOwn k v o = (o ++ [(k, v)])%list.
Proof.
  induction o as [|[k1 v1] o IH]; simpl; [reflexivity|].
  destruct (String.eqb k k1); [discriminate|].
  intros H. now rewrite IH.
Qed.

Lemma keys_setOwn_present k v v0 o :
  getOwn k o = Some v0 -> keys (setOwn k v o) = keys o.
Proof.
  induction o as [|[k1 v1] o IH]; simpl; [discriminate|].
  destruct (String.eqb k k1); [reflexivity|].
  intros H. simpl. f_equal. now apply IH.
Qed.

Lemma In_setOwn k v k' v' o :
  In (k', v') (setOwn k v o) -> (k' = k /\ v' = v) \/ In (k', v') o.
Proof.
  induction o as [|[k1 v1] o IH]; simpl.
  - intros [[= <- <-]|[]]. now left.
  - destruct (String.eqb_spec k k1) as [->|_]; simpl.
    + intros [[= <- <-]|Hin]; [now left | right; now right].
    + intros [E|Hin]; [right; now left|].
      destruct (IH Hin) as [?|?]; [now left | right; now right].
Qed.

End ObjectFacts.

Section GroupFacts.
Implicit Types (grouped : Object_ (list NvidiaGpu)) (g : NvidiaGpu).

Lemma members_setOwn_present g gs grouped :
  getOwn (series g) grouped = Some gs ->
  Permutation (members (setOwn (series g) (gs ++ [g])%list grouped))
              (g :: members grouped).
Proof.
  unfold members. generalize (series g) as k. intros k.
  induction grouped as [|[k1 v1] o IH]; simpl; [discriminate|].
  destruct (String.eqb k k1).
  - intros [= ->]. simpl. rewrite <- app_assoc. simpl.
    symmetry. apply Permutation_middle.
  - intros H. simpl. rewrite (IH H). symmetry. apply Permutation_middle.
Qed.

Lemma groupStep_spec grouped g grouped' :
  groupStep grouped g = Some grouped' ->
  NoDup (keys grouped) -> labelled grouped ->
  NoDup (keys grouped') /\ labelled grouped'
  /\ Permutation (members grouped') (g :: members grouped).
Proof.
  unfold groupStep. intros H Hnd Hlab.
  destruct (getOwn (series g) grouped) as [gs|] eqn:E.
  - injection H as <-. split; [|split].
    + now rewrite (keys_setOwn_present _ _ _ _ E).
    + intros k gs' g' Hin Hg'.
      destruct (In_setOwn _ _ _ _ _ Hin) as [[-> ->]|Hold].
      * apply in_app_or in Hg'. destruct Hg' as [Hg'|[<-|[]]].
        -- apply (Hlab _ gs); [now apply getOwn_Some_In | assumption].
        -- reflexivity.
      * now apply (Hlab _ gs').
    + now apply members_setOwn_present.
  - destruct (inherited (series g)); [discriminate|].
    injection H as <-. rewrite (setOwn_fresh _ _ _ E).
    split; [|split].
    + unfold keys. rewrite map_app. simpl.
      apply NoDup_app; [assumption | constructor; [tauto | constructor] | ].
      intros k Hk [<-|[]]. now apply (getOwn_None_keys _ _ E).
    + intros k gs' g' Hin Hg'. apply in_app_or in Hin.
      destruct Hin as [Hin|[[= <- <-]|[]]].
      * now apply (Hlab _ gs').
      * destruct Hg' as [<-|[]]. reflexivity.
    + unfold members. rewrite map_app, concat_app. simpl.
      symmetry. apply Permutation_cons_append.
Qed.

(** The first loop fails only on a label inherited from
    [Object.prototype]. *)
Lemma groupStep_succeeds grouped g :
  inherited (series g) = false ->
  exists grouped', groupStep grouped g = Some grouped'.
Proof.
  intros H. unfold groupStep.
  destruct (getOwn (series g) grouped); rewrite ?H; eauto.
Qed.

Lemma groupAll_spec gpus : forall grouped,
  Forall (fun g => inherited (series g) = false) gpus ->
  NoDup (keys grouped) -> labelled grouped ->
  exists grouped',
    groupAll grouped gpus = Some grouped'
    /\ NoDup (keys grouped') /\ labelled grouped'
    /\ Permutation (members grouped') (members grouped ++ gpus).
Proof.
  induction gpus as [|g gpus IH]; intros grouped Hin Hnd Hlab.
  - exists grouped. rewrite app_nil_r. repeat split; auto.
  - inversion Hin as [|? ? Hg Hrest]; subst.
    destruct (groupStep_succeeds grouped g Hg) as [g1 E1].
    destruct (groupStep_spec _ _ _ E1 Hnd Hlab) as (Hnd1 & Hlab1 & Hp1).
    destruct (IH g1 Hrest Hnd1 Hlab1) as (g2 & E2 & Hnd2 & Hlab2 & Hp2).
    exists g2. simpl. rewrite E1. repeat split; auto.
    rewrite Hp2, Hp1. apply Permutation_middle.
Qed.

End GroupFacts.

Section SortFacts.
Context {A : Type} (comparefn : A -> A -> number).

Lemma insert_Permutation x l : Permutation (insert comparefn x l) (x :: l).
Proof.
  induction l as [|y l IH]; simpl; [reflexivity|].
  destruct (gt (comparefn x y) zero); [|reflexivity].
  rewrite IH. apply perm_swap.
Qed.

Lemma sort_Permutation l : Permutation (sort comparefn l) l.
Proof.
  induction l as [|x l IH]; simpl; [reflexivity|].
  rewrite insert_Permutation. now apply perm_skip.
Qed.

End SortFacts.

Section DescendingFacts.

(** On finite numbers the sign of [b - a] is the ordering of [b] and
    [a]. *)
Lemma compare_sub_zero a b :
  is_finite a = true -> is_finite b = true ->
  JS.compare (b - a)%js zero = JS.compare b a.
Proof.
  destruct a as [| |s2 n2 d2]; try discriminate.
  destruct b as [| |s1 n1 d1]; try discriminate. intros _ _.
  change zero with (Fin false 0 1). unfold sub, neg, add. cbv zeta.
  destruct s1, s2; simpl Bool.eqb; simpl negb; cbv iota;
    try destruct (N.compare_spec (n1 * Npos d2) (n2 * Npos d1));
    unfold JS.compare, signed; f_equal;
    match goal with
    | |- (?x ?= ?y) = (?u ?= ?v) =>
        destruct (Z.compare_spec x y), (Z.compare_spec u v)
    end; try reflexivity; lia.
Qed.

Lemma gt_byTflopsDescending x y :
  is_finite (tflops x) = true -> is_finite (tflops y) = true ->
  gt (byTflopsDescending x y) zero = gt (tflops y) (tflops x).
Proof.
  intros Hx Hy. unfold gt, byTflopsDescending.
  now rewrite compare_sub_zero.
Qed.

(** Of two finite numbers one is [>=] the other. *)
Lemma not_gt_ge a b :
  is_finite a = true -> is_finite b = true ->
  gt b a = false -> ge a b = true.
Proof.
  destruct a as [| |s2 n2 d2]; try discriminate.
  destruct b as [| |s1 n1 d1]; try discriminate. intros _ _.
  unfold gt, ge, JS.compare.
  rewrite (Z.compare_antisym (signed s2 n2 * Zpos d1)).
  destruct (signed s2 n2 * Zpos d1 ?= signed s1 n1 * Zpos d2);
    simpl; congruence.
Qed.

Lemma gt_ge a b : gt b a = true -> ge b a = true.
Proof. unfold gt, ge. destruct (JS.compare b a) as [[]|]; congruence. Qed.

Lemma insert_HdRel x y l :
  tflops_ge y x -> HdRel tflops_ge y l ->
  HdRel tflops_ge y (insert byTflopsDescending x l).
Proof.
  intros Hyx Hl. destruct l as [|z l]; simpl.
  - now constructor.
  - destruct (gt (byTflopsDescending x z) zero); constructor;
      [now inversion Hl | assumption].
Qed.

Lemma insert_Sorted x l :
  finite_tflops x -> Forall finite_tflops l ->
  Sorted tflops_ge l -> Sorted tflops_ge (insert byTflopsDescending x l).
Proof.
  intros Hx Hfin Hs. induction Hs as [|y l Hs IH Hhd]; simpl.
  - repeat constructor.
  - inversion Hfin as [|? ? Hy Hfin']; subst.
    rewrite gt_byTflopsDescending by assumption.
    destruct (gt (tflops y) (tflops x)) eqn:E.
    + constructor; [now apply IH|].
      apply insert_HdRel; [|assumption]. now apply gt_ge.
    + constructor; [now constructor|].
      constructor. now apply not_gt_ge.
Qed.

Lemma sort_Sorted l :
  Forall finite_tflops l -> Sorted tflops_ge (sort byTflopsDescending l).
Proof.
  induction l as [|x l IH]; simpl; intros Hfin; [constructor|].
  inversion Hfin as [|? ? Hx Hfin']; subst.
  apply insert_Sorted; [assumption | | now apply IH].
  apply Forall_forall. intros g Hg.
  eapply Forall_forall; [exact Hfin'|].
  eapply Permutation_in; [apply sort_Permutation | exact Hg].
Qed.

End DescendingFacts.

Section GroupBySeriesFacts.

Lemma ge_trans a b c : ge a b = true -> ge b c = true -> ge a c = true.
Proof.
  unfold ge.
  destruct a as [|sa|sa na da], b as [|sb|sb nb db], c as [|sc|sc nc dc];
    simpl; try discriminate; try (destruct sa, sb, sc; simpl; congruence);
    try (destruct sa; simpl; congruence);
    try (destruct sc; simpl; congruence);
    try (destruct sa, sc; simpl; congruence).
  generalize (signed sa na) as x, (signed sb nb) as y, (signed sc nc) as z.
  intros x y z.
  destruct (Z.compare_spec (x * Zpos db) (y * Zpos da));
    destruct (Z.compare_spec (y * Zpos dc) (z * Zpos db));
    destruct (Z.compare_spec (x * Zpos dc) (z * Zpos da));
    try reflexivity; try discriminate; intros _ _; exfalso; nia.
Qed.

Lemma tflops_ge_trans : Relations_1.Transitive tflops_ge.
Proof. intros a b c. unfold tflops_ge. apply ge_trans. Qed.

Lemma keys_map_sort (grouped : Object_ (list NvidiaGpu)) :
  keys (map (fun kv => (fst kv, sort byTflopsDescending (snd kv))) grouped)
  = keys grouped.
Proof. unfold keys. rewrite map_map. reflexivity. Qed.

Lemma members_map_sort (grouped : Object_ (list NvidiaGpu)) :
  Permutation
    (members (map (fun kv => (fst kv, sort byTflopsDescending (snd kv)))
                  grouped))
    (members grouped).
Proof.
  unfold members. induction grouped as [|[k gs] o IH]; simpl; [reflexivity|].
  apply Permutation_app; [apply sort_Permutation | exact IH].
Qed.

Lemma In_members (grouped : Object_ (list NvidiaGpu)) k gs g :
  In (k, gs) grouped -> In g gs -> In g (members grouped).
Proof.
  intros Hin Hg. unfold members. apply in_concat. exists gs.
  split; [|assumption]. change gs with (snd (k, gs)). now apply in_map.
Qed.

Lemma members_In (grouped : Object_ (list NvidiaGpu)) g :
  In g (members grouped) -> exists k gs, In (k, gs) grouped /\ In g gs.
Proof.
  unfold members. intros H. apply in_concat in H.
  destruct H as (gs & Hgs & Hg). apply in_map_iff in Hgs.
  destruct Hgs as ([k gs'] & E & Hin). simpl in E. subst gs'.
  now exists k, gs.
Qed.

(** The grouping of any catalog whose throughputs are finite and whose
    series labels are not inherited property names. *)
Lemma groupBySeries_spec (gpus : list NvidiaGpu) :
  Forall finite_tflops gpus ->
  Forall (fun g => inherited (series g) = false) gpus ->
  exists grouped,
    groupBySeries gpus = Some grouped
    /\ NoDup (keys grouped)
    /\ labelled grouped
    /\ Permutation (members grouped) gpus
    /\ (forall k gs, In (k, gs) grouped -> StronglySorted tflops_ge gs).
Proof.
  intros Hfin Hinh.
  destruct (groupAll_spec gpus [] Hinh) as (g0 & E & Hnd & Hlab & Hperm).
  - constructor.
  - intros k gs g [].
  - simpl in Hperm. unfold groupBySeries. rewrite E.
    eexists. split; [reflexivity|]. split; [|split; [|split]].
    + now rewrite keys_map_sort.
    + intros k gs g Hin Hg. apply in_map_iff in Hin.
      destruct Hin as ([k0 gs0] & [= <- <-] & Hin0). simpl in Hg.
      apply (Hlab k0 gs0); [assumption|].
      eapply Permutation_in; [apply sort_Permutation | exact Hg].
    + now rewrite members_map_sort.
    + intros k gs Hin. apply in_map_iff in Hin.
      destruct Hin as ([k0 gs0] & [= <- <-] & Hin0). simpl.
      apply Sorted_StronglySorted; [exact tflops_ge_trans|].
      apply sort_Sorted. apply Forall_forall. intros g Hg.
      eapply Forall_forall; [exact Hfin|].
      eapply Permutation_in; [exact Hperm|].
      now apply (In_members g0 k0 gs0).
Qed.

End GroupBySeriesFacts.

(** C8.  [getGpusBySeries] returns a mapping (no label twice) in which the
    groups hold exactly the catalog devices, no device twice, each under
    its own series label -- the group found at a device's label holds the
    device -- and within every group the devices are in descending order of
    [tflops]; a second call returns the same mapping. *)
Theorem getGpusBySeries_spec :
  exists grouped,
    getGpusBySeries = Some grouped
    /\ NoDup (keys grouped)
    /\ NoDup (members grouped)
    /\ (forall g, In g nvidiaGpus <->
                  exists k gs, In (k, gs) grouped /\ In g gs)
    /\ (forall k gs g, In (k, gs) grouped -> In g gs -> series g = k)
    /\ (forall g, In g nvidiaGpus ->
                  exists gs, getOwn (series g) grouped = Some gs /\ In g gs)
    /\ (forall k gs, In (k, gs) grouped -> StronglySorted tflops_ge gs)
    /\ fst (getGpusBySeries_call (snd (getGpusBySeries_call nvidiaGpus)))
       = Some grouped.
Proof.
  destruct (groupBySeries_spec nvidiaGpus)
    as (grouped & E & Hnd & Hlab & Hperm & Hsorted).
  - apply forallb_Forall with (f := fun g => is_finite (tflops g)).
    vm_compute. reflexivity.
  - assert (H : forallb (fun g => negb (inherited (series g))) nvidiaGpus
                = true) by (vm_compute; reflexivity).
    apply Forall_forall. intros g Hg.
    apply negb_true_iff. now apply (proj1 (forallb_forall _ _) H).
  - assert (Hcat : NoDup nvidiaGpus).
    { apply (NoDup_of_map name). apply distinct_NoDup.
      vm_compute. reflexivity. }
    assert (Hin : forall g, In g nvidiaGpus ->
                            exists k gs, In (k, gs) grouped /\ In g gs).
    { intros g Hg. apply members_In.
      eapply Permutation_in; [symmetry; exact Hperm | exact Hg]. }
    exists grouped. repeat split.
    + exact E.
    + exact Hnd.
    + apply (Permutation_NoDup (l := nvidiaGpus)); [now symmetry | exact Hcat].
    + apply Hin.
    + intros (k & gs & Hk & Hg).
      eapply Permutation_in; [exact Hperm|]. now apply (In_members _ k gs).
    + exact Hlab.
    + intros g Hg. destruct (Hin g Hg) as (k & gs & Hk & Hgs).
      exists gs. split; [|exact Hgs].
      rewrite (Hlab k gs g Hk Hgs). now apply getOwn_In_NoDup.
    + exact Hsorted.
    + exact E.
Qed.

Example getGpusBySeries_Hopper :
  option_map (fun grouped => option_map (map name) (getOwn "Hopper" grouped))
             getGpusBySeries
  = Some (Some ["H100 NVL"; "H100 PCIe"; "H100 SXM"]%string).
Proof. vm_compute. reflexivity. Qed.
